(** * md_mermaid: the line rewriter of the Mermaid preprocessor

    A shallow embedding of [src/md_mermaid.py]: the module-level pattern
    [MermaidRegex], the function [strip_notprintable], the constructor
    [MermaidPreprocessor.__init__], the method [MermaidPreprocessor.run] and
    the default options of [MermaidExtension], followed by the properties of
    the natural-language specification that were checked against them and by
    further properties of the code. *)

From Stdlib Require Import List NArith Bool Lia String Ascii.
Import ListNotations.

Local Open Scope N_scope.
Local Open Scope list_scope.

(** ** Python strings *)

(** A Python [str] is a sequence of Unicode code points. *)
Definition char := N.
Definition str := list char.

(** [lit "abc"] is the Python literal ['abc'] (ASCII text only). *)
Definition lit (s : string) : str := map N_of_ascii (list_ascii_of_string s).

Definition dq : str := [34].   (* the double quote character *)
Definition nl : char := 10.    (* '\n' *)

Definition str_eqb (a b : str) : bool :=
  if list_eq_dec N.eq_dec a b then true else false.

(** [str.isspace] on one code point: the white space that [str.rstrip()]
    removes when it is called without argument. *)
Definition isspace (c : char) : bool :=
  ((9 <=? c) && (c <=? 13)) || ((28 <=? c) && (c <=? 32))
  || (c =? 133) || (c =? 160) || (c =? 5760)
  || ((8192 <=? c) && (c <=? 8202))
  || (c =? 8232) || (c =? 8233) || (c =? 8239) || (c =? 8287) || (c =? 12288).

Fixpoint dropwhile (p : char -> bool) (s : str) : str :=
  match s with
  | [] => []
  | c :: t => if p c then dropwhile p t else s
  end.

(** [line.rstrip()]: the white space at the right end is dropped. *)
Definition rstrip (s : str) : str := rev (dropwhile isspace (rev s)).

(** Truth value of a Python string: the empty string is false. *)
Definition truthy (s : str) : bool :=
  match s with [] => false | _ :: _ => true end.

(** ** The regular expressions *)

(** The two glyphs of the class [[\~\`]]; a captured [mermaid_sign] is one of
    them. *)
Inductive glyph := Tilde | Backtick.

Definition glyph_char (g : glyph) : char :=
  match g with Tilde => 126 | Backtick => 96 end.

Definition glyph_of (c : char) : option glyph :=
  if c =? 126 then Some Tilde else if c =? 96 then Some Backtick else None.

(** The class [[\ \t]]. *)
Definition blank (c : char) : bool := (c =? 32) || (c =? 9).

(** [$] without the MULTILINE flag: the end of the string, or the position
    just before a newline that is the last character. *)
Definition at_dollar (rest : str) : bool :=
  match rest with
  | [] => true
  | [c] => c =? nl
  | _ => false
  end.

(** [[\ \t]*$]: the star is greedy, and giving blanks back never helps since
    [$] does not hold in front of a blank. *)
Definition blanks_dollar (rest : str) : bool := at_dollar (dropwhile blank rest).

(** A literal piece of a pattern at the head of [s]; the remainder on
    success. *)
Fixpoint strip_prefix (p s : str) : option str :=
  match p, s with
  | [], _ => Some s
  | x :: p', y :: s' => if x =? y then strip_prefix p' s' else None
  | _ :: _, [] => None
  end.

(** [[Mm]ermaid] at the head of [s]; the remainder on success. *)
Definition word_mermaid (s : str) : option str :=
  match s with
  | m :: rest =>
      if (m =? 77) || (m =? 109) then strip_prefix (lit "ermaid") rest else None
  | [] => None
  end.

(** [MermaidRegex.match(line)]:
    [^(?P<mermaid_sign>[\~\`]){3}[\ \t]*[Mm]ermaid[\ \t]*$].
    [None] when there is no match, otherwise the group [mermaid_sign], which
    for a group repeated three times holds its last repetition. *)
Definition MermaidRegex_match (line : str) : option glyph :=
  match line with
  | a :: b :: c :: rest =>
      match glyph_of a, glyph_of b, glyph_of c with
      | Some _, Some _, Some g =>
          match word_mermaid (dropwhile blank rest) with
          | Some rest' => if blanks_dollar rest' then Some g else None
          | None => None
          end
      | _, _, _ => None
      end
  | _ => None
  end.

(** The class opened by ["^["] when [mermaid_sign] is still the empty string:
    the pattern then reads [^[]{3}[\ \t]*$], where the leading ["]"] is a
    literal member of the class, which closes after [\t]. *)
Definition unset_sign_class (c : char) : bool :=
  (c =? 93) || (c =? 123) || (c =? 51) || (c =? 125) || (c =? 91) || blank c.

(** [re.match(r"^["+mermaid_sign+"]{3}[\ \t]*$", line)], as a truth value.
    [mermaid_sign] is [None] for the initial empty string. *)
Definition end_match (mermaid_sign : option glyph) (line : str) : bool :=
  match mermaid_sign with
  | Some g =>
      match line with
      | a :: b :: c :: rest =>
          (a =? glyph_char g) && (b =? glyph_char g) && (c =? glyph_char g)
          && blanks_dollar rest
      | _ => false
      end
  | None => at_dollar (dropwhile unset_sign_class line)
  end.

(** [re.match(r"^[\ \t]*$", old_line)], as a truth value. *)
Definition blank_line (old_line : str) : bool := blanks_dollar old_line.

(** ** Emitted markup *)

Definition div_open : str := lit "<div class=" ++ dq ++ lit "mermaid" ++ dq ++ lit ">".
Definition div_close : str := lit "</div>".

Definition script_src (url : str) : str :=
  lit "<script src=" ++ dq ++ url ++ dq ++ lit "></script>".

Definition script_init : str :=
  lit "<script>mermaid.initialize({startOnLoad:true});</script>".

Definition sp (n : nat) : str := repeat 32 n.

(** The triple-quoted string appended when no script source is configured:
    one element of the output holding eleven physical lines. *)
Definition script_deferred : str :=
  lit "<script>" ++ [nl]
  ++ sp 24 ++ lit "function initializeMermaid() {" ++ [nl]
  ++ sp 28 ++ lit "mermaid.initialize({startOnLoad:true})" ++ [nl]
  ++ sp 24 ++ lit "}" ++ [nl]
  ++ [nl]
  ++ sp 24 ++ lit "if (document.readyState === " ++ dq ++ lit "complete" ++ dq
  ++ lit " || document.readyState === " ++ dq ++ lit "interactive" ++ dq
  ++ lit ") {" ++ [nl]
  ++ sp 28 ++ lit "setTimeout(initializeMermaid, 1);" ++ [nl]
  ++ sp 24 ++ lit "} else {" ++ [nl]
  ++ sp 28 ++ lit "document.addEventListener(" ++ dq ++ lit "DOMContentLoaded"
  ++ dq ++ lit ", initializeMermaid);" ++ [nl]
  ++ sp 24 ++ lit "}" ++ [nl]
  ++ sp 16 ++ lit "</script>".

Definition url_default : str := lit "https://unpkg.com/mermaid/dist/mermaid.min.js".

Definition url_versioned (v : str) : str :=
  lit "https://unpkg.com/mermaid@" ++ v ++ lit "/dist/mermaid.min.js".

(** ** Configuration and construction *)

(** The two options of [MermaidExtension.config]; [mermaid_js_url] is a string
    or Python's [None], written [None] here. *)
Record Config := mkConfig {
  mermaid_version : str;
  mermaid_js_url : option str
}.

(** An instance attribute: absent from the object, bound to [None], or bound
    to a string. *)
Inductive attr := Unset | PyNone | PyStr (s : str).

(** The attributes [__init__] may bind. *)
Record MermaidPreprocessor := mkPreprocessor {
  config : Config;
  self_mermaid_js_url : attr;
  self_mermaid_url : attr
}.

(** [MermaidPreprocessor.__init__]. The second branch binds [mermaid_url],
    not [mermaid_js_url]. *)
Definition init (cfg : Config) : MermaidPreprocessor :=
  match mermaid_js_url cfg with
  | None => mkPreprocessor cfg PyNone Unset
  | Some u =>
      if truthy u then mkPreprocessor cfg Unset (PyStr u)
      else if str_eqb (mermaid_version cfg) (lit "latest")
              || negb (truthy (mermaid_version cfg))
      then mkPreprocessor cfg (PyStr url_default) Unset
      else mkPreprocessor cfg (PyStr (url_versioned (mermaid_version cfg))) Unset
  end.

(** ** The run loop *)

Inductive exn := AttributeError.

Inductive result (A : Type) :=
| Return (a : A)
| Raise (e : exn).
Arguments Return {A} a.
Arguments Raise {A} e.

(** The local variables of [run]. A match object is kept as what the code
    reads from it: [m_start] as its group [mermaid_sign], [m_end] as its truth
    value. *)
Record state := mkState {
  old_line : str;
  new_lines : list str;
  mermaid_sign : option glyph;
  m_start : option glyph;
  m_end : bool;
  in_mermaid_code : bool;
  is_mermaid : bool
}.

Definition state0 : state :=
  mkState [] [] None None false false false.

(** The first [if]/[else] of the loop body: look for an opening fence outside
    a block, for the closing fence inside one. *)
Definition look (st : state) (line : str) : state :=
  if negb (in_mermaid_code st) then
    mkState (old_line st) (new_lines st) (mermaid_sign st)
            (MermaidRegex_match line) (m_end st)
            (in_mermaid_code st) (is_mermaid st)
  else
    let m := end_match (mermaid_sign st) line in
    mkState (old_line st) (new_lines st) (mermaid_sign st)
            (m_start st) m
            (if m then false else in_mermaid_code st) (is_mermaid st).

(** The [if m_start]/[elif m_end]/[elif in_mermaid_code]/[else] chain. *)
Definition emit (st : state) (line : str) : state :=
  match m_start st with
  | Some g =>
      let sep := if negb (blank_line (old_line st)) then [[]] else [] in
      mkState (old_line st) ((new_lines st ++ sep) ++ [div_open]) (Some g)
              None (m_end st) true true
  | None =>
      if m_end st then
        mkState (old_line st) ((new_lines st ++ [div_close]) ++ [[]])
                (mermaid_sign st) None false
                (in_mermaid_code st) (is_mermaid st)
      else if in_mermaid_code st then
        mkState (old_line st) (new_lines st ++ [rstrip line])
                (mermaid_sign st) None (m_end st)
                (in_mermaid_code st) (is_mermaid st)
      else
        mkState (old_line st) (new_lines st ++ [line])
                (mermaid_sign st) None (m_end st)
                (in_mermaid_code st) (is_mermaid st)
  end.

(** One iteration of [for line in lines]. *)
Definition step (st : state) (line : str) : state :=
  let st' := emit (look st line) line in
  mkState line (new_lines st') (mermaid_sign st')
          (m_start st') (m_end st') (in_mermaid_code st') (is_mermaid st').

Definition loop (lines : list str) : state := fold_left step lines state0.

(** Reading [self.mermaid_js_url] raises [AttributeError] when [__init__]
    did not bind it. *)
Definition get_mermaid_js_url (self : MermaidPreprocessor) : result attr :=
  match self_mermaid_js_url self with
  | Unset => Raise AttributeError
  | a => Return a
  end.

Definition attr_truthy (a : attr) : bool :=
  match a with
  | PyStr s => truthy s
  | _ => false
  end.

Definition attr_str (a : attr) : str :=
  match a with
  | PyStr s => s
  | _ => lit "None"
  end.

(** [MermaidPreprocessor.run]. *)
Definition run (self : MermaidPreprocessor) (lines : list str) : result (list str) :=
  let st := loop lines in
  if is_mermaid st then
    let out := new_lines st ++ [[]] in
    match get_mermaid_js_url self with
    | Raise e => Raise e
    | Return u =>
        if attr_truthy u then
          Return ((out ++ [script_src (attr_str u)]) ++ [script_init])
        else
          Return (out ++ [script_deferred])
    end
  else Return (new_lines st).

(** Constructing the preprocessor from a configuration and running it. *)
Definition process (cfg : Config) (lines : list str) : result (list str) :=
  run (init cfg) lines.

(** ** The scan as a two-state machine

    The state that matters between two iterations is whether the scan is
    inside a block and, if so, which glyph closes it (the enum of the
    specification's design notes). The definitions of this section restate
    the loop in that form; [loop_new_lines] and [loop_is_mermaid] relate them
    to the loop as the source writes it. *)

Inductive scan := Outside | InsideBlock (g : glyph).

(** What a line is to the scan that reaches it. *)
Inductive role := OpenFence (g : glyph) | CloseFence | Content | Plain.

Definition role_of (s : scan) (line : str) : role :=
  match s with
  | Outside =>
      match MermaidRegex_match line with
      | Some g => OpenFence g
      | None => Plain
      end
  | InsideBlock g => if end_match (Some g) line then CloseFence else Content
  end.

Definition next_scan (s : scan) (r : role) : scan :=
  match r with
  | OpenFence g => InsideBlock g
  | CloseFence => Outside
  | Content | Plain => s
  end.

(** The lines one input line contributes, [prev] being the line before it. *)
Definition emitted (prev : str) (r : role) (line : str) : list str :=
  match r with
  | OpenFence _ => (if blank_line prev then [] else [[]]) ++ [div_open]
  | CloseFence => [div_close; []]
  | Content => [rstrip line]
  | Plain => [line]
  end.

Fixpoint roles (s : scan) (lines : list str) : list role :=
  match lines with
  | [] => []
  | line :: rest =>
      let r := role_of s line in r :: roles (next_scan s r) rest
  end.

Fixpoint rewrite (s : scan) (prev : str) (lines : list str) : list str :=
  match lines with
  | [] => []
  | line :: rest =>
      let r := role_of s line in
      emitted prev r line ++ rewrite (next_scan s r) line rest
  end.

(** The lines met as block content, in order. *)
Fixpoint content_lines (s : scan) (lines : list str) : list str :=
  match lines with
  | [] => []
  | line :: rest =>
      let r := role_of s line in
      match r with
      | Content => line :: content_lines (next_scan s r) rest
      | _ => content_lines (next_scan s r) rest
      end
  end.

Definition is_fence (line : str) : bool :=
  match MermaidRegex_match line with Some _ => true | None => false end.

(** The document has a line of the opening-fence shape. *)
Definition has_fence (lines : list str) : bool := existsb is_fence lines.

(** The scan state a loop state stands for. *)
Definition scan_of (st : state) : scan :=
  if in_mermaid_code st then
    match mermaid_sign st with
    | Some g => InsideBlock g
    | None => Outside
    end
  else Outside.

(** What holds of the loop variables at the head of every iteration. *)
Definition wf (st : state) : Prop :=
  m_start st = None /\ m_end st = false /\
  (in_mermaid_code st = true -> mermaid_sign st <> None).

Definition is_open (r : role) : bool :=
  match r with OpenFence _ => true | _ => false end.

(** The lines appended after the loop, by the attribute [mermaid_js_url]. *)
Definition init_block (a : attr) : list str :=
  if attr_truthy a then [[]; script_src (attr_str a); script_init]
  else [[]; script_deferred].

(** ** The opening fence in words *)

Definition lower (c : char) : char :=
  if (65 <=? c) && (c <=? 90) then c + 32 else c.

(** The opening fence as the specification words it: optional leading white
    space, three repetitions of one glyph, optional white space, the word
    "mermaid" in any letter case, optional trailing white space. *)
Definition claimed_opening_fence (line : str) : Prop :=
  exists ws0 g ws1 word ws2,
    line = ws0 ++ [glyph_char g; glyph_char g; glyph_char g] ++ ws1 ++ word ++ ws2
    /\ forallb isspace ws0 = true
    /\ forallb isspace ws1 = true
    /\ map lower word = lit "mermaid"
    /\ forallb isspace ws2 = true.

(** The opening fence with three repetitions of one glyph as the pattern
    takes it: the glyphs come first, the blanks are spaces and tabs, the word
    is "mermaid" or "Mermaid", and one final newline may follow. *)
Definition uniform_opening_fence (line : str) : Prop :=
  exists g ws1 m ws2 e,
    line = [glyph_char g; glyph_char g; glyph_char g]
           ++ ws1 ++ m :: lit "ermaid" ++ ws2 ++ e
    /\ forallb blank ws1 = true
    /\ (m = 77 \/ m = 109)
    /\ forallb blank ws2 = true
    /\ (e = [] \/ e = [nl]).

(** [t] is [l] with the white space at its right end removed, and nothing
    else changed. *)
Definition right_trimmed (t l : str) : Prop :=
  exists ws, l = t ++ ws /\ forallb isspace ws = true
             /\ (t = [] \/ isspace (last t 0) = false).

(** ** Exchanging the fence glyphs *)

Definition other (g : glyph) : glyph :=
  match g with Tilde => Backtick | Backtick => Tilde end.

Definition swap_char (c : char) : char :=
  if c =? 126 then 96 else if c =? 96 then 126 else c.

(** A fence line with each of its three fence characters replaced by the
    other glyph. *)
Definition swap_fence (line : str) : str :=
  map swap_char (firstn 3 line) ++ skipn 3 line.

(** The document with every opening fence the scan takes, and the closing
    fence that ends its block, rewritten in the other glyph; every other line
    is kept. *)
Fixpoint swap_fences (s : scan) (lines : list str) : list str :=
  match lines with
  | [] => []
  | line :: rest =>
      let r := role_of s line in
      match r with
      | OpenFence _ | CloseFence => swap_fence line
      | Content | Plain => line
      end :: swap_fences (next_scan s r) rest
  end.

Definition swap_scan (s : scan) : scan :=
  match s with
  | Outside => Outside
  | InsideBlock g => InsideBlock (other g)
  end.

(** ** The rest of the module *)

(** Python's [string] constants, as the standard library composes them. *)
Definition string_digits : str := lit "0123456789".
Definition string_ascii_lowercase : str := lit "abcdefghijklmnopqrstuvwxyz".
Definition string_ascii_uppercase : str := lit "ABCDEFGHIJKLMNOPQRSTUVWXYZ".
Definition string_ascii_letters : str :=
  string_ascii_lowercase ++ string_ascii_uppercase.
Definition string_punctuation : str :=
  lit "!" ++ dq ++ lit "#$%&'()*+,-./:;<=>?@[\]^_`{|}~".
Definition string_whitespace : str := [32; 9; 10; 13; 11; 12].
Definition string_printable : str :=
  string_digits ++ string_ascii_letters ++ string_punctuation
  ++ string_whitespace.

(** [x in s] for a one-character [x]. *)
Definition py_in (x : char) (s : str) : bool := existsb (N.eqb x) s.

(** [strip_notprintable]:
    [''.join(filter(lambda x: x in string.printable, myStr))]. *)
Definition strip_notprintable (myStr : str) : str :=
  filter (fun x => py_in x string_printable) myStr.

(** The defaults of [MermaidExtension.config]: version ['latest'], and the
    empty string for [mermaid_js_url]. *)
Definition MermaidExtension_config : Config := mkConfig (lit "latest") (Some []).

(** ** Further notions for the scan *)

(** The scan state after a run of lines. *)
Fixpoint scan_end (s : scan) (lines : list str) : scan :=
  match lines with
  | [] => s
  | line :: rest => scan_end (next_scan s (role_of s line)) rest
  end.

Definition inside (s : scan) : bool :=
  match s with InsideBlock _ => true | Outside => false end.

Definition str_dec : forall a b : str, {a = b} + {a <> b} := list_eq_dec N.eq_dec.

(** How many elements of [ls] are the line [x]. *)
Definition occurrences (x : str) (ls : list str) : nat := count_occ str_dec ls x.

(** The printable code points as ranges: tab to carriage return, and space
    to tilde. *)
Definition printable_range (c : char) : bool :=
  ((9 <=? c) && (c <=? 13)) || ((32 <=? c) && (c <=? 126)).

(** ** Properties of the string functions *)

Arguments end_match : simpl never.
Arguments MermaidRegex_match : simpl never.
Arguments blank_line : simpl never.
Arguments rstrip : simpl never.

(** Settles a goal about every member [l] of an explicit list, [Hl] being
    the membership, by running [tac] on each member. *)
Ltac each_member Hl tac :=
  simpl in Hl; repeat (destruct Hl as [<- | Hl]; [tac|]); destruct Hl.

Lemma dropwhile_app_all p (a b : str) :
  forallb p a = true -> dropwhile p (a ++ b) = dropwhile p b.
Proof.
  induction a as [|c a IH]; simpl; [reflexivity|].
  intros H. apply andb_true_iff in H as [Hc Ha]. rewrite Hc. auto.
Qed.

Lemma dropwhile_split p (s : str) :
  exists a, s = a ++ dropwhile p s /\ forallb p a = true.
Proof.
  induction s as [|c s [a [E Ha]]]; simpl.
  - exists []. auto.
  - destruct (p c) eqn:Hc.
    + exists (c :: a). simpl. rewrite Hc, Ha. split; [congruence|reflexivity].
    + exists []. auto.
Qed.

Lemma dropwhile_head p (s : str) c t :
  dropwhile p s = c :: t -> p c = false.
Proof.
  induction s as [|d s IH]; simpl; [discriminate|].
  destruct (p d) eqn:Hd; [exact IH|].
  intros E. injection E as -> _. exact Hd.
Qed.

(** [rstrip] cuts a suffix of white space off, and what is left does not end
    in white space. *)
Lemma rstrip_spec (s : str) :
  exists ws, s = rstrip s ++ ws /\ forallb isspace ws = true /\
             (forall c, last (rstrip s) 0 = c -> rstrip s <> [] -> isspace c = false).
Proof.
  unfold rstrip.
  destruct (dropwhile_split isspace (rev s)) as [a [E Ha]].
  exists (rev a). split; [|split].
  - rewrite <- rev_app_distr, <- E, rev_involutive. reflexivity.
  - rewrite forallb_forall in *. intros x Hx. apply Ha. now apply in_rev.
  - intros c Hl Hne.
    destruct (dropwhile isspace (rev s)) as [|d t] eqn:D; [now elim Hne|].
    simpl in Hl. rewrite last_last in Hl. subst c.
    eapply dropwhile_head; eassumption.
Qed.

Lemma glyph_of_char g : glyph_of (glyph_char g) = Some g.
Proof. destruct g; reflexivity. Qed.

Lemma glyph_of_some c g : glyph_of c = Some g -> c = glyph_char g.
Proof.
  unfold glyph_of.
  destruct (c =? 126) eqn:E1; [apply N.eqb_eq in E1; now intros [= <-]|].
  destruct (c =? 96) eqn:E2; [apply N.eqb_eq in E2; now intros [= <-]|].
  discriminate.
Qed.

(** ** The loop refines the two-state machine *)

Lemma wf_state0 : wf state0.
Proof. repeat split. discriminate. Qed.

(** One iteration, started from a well-formed state, does what the machine
    does on the same line. *)
Lemma step_refines st line :
  wf st ->
  let r := role_of (scan_of st) line in
  wf (step st line)
  /\ scan_of (step st line) = next_scan (scan_of st) r
  /\ new_lines (step st line) = new_lines st ++ emitted (old_line st) r line
  /\ old_line (step st line) = line
  /\ is_mermaid (step st line) = is_mermaid st || is_open r.
Proof.
  intros (Hs & He & Hg). unfold step, look, emit, scan_of, role_of, wf.
  destruct st as [ol nls sg ms me inc ism]. simpl in *. subst ms me.
  destruct inc; simpl.
  - destruct sg as [g|]; [|now elim Hg].
    destruct (end_match (Some g) line) eqn:Em; simpl.
    + rewrite <- app_assoc, orb_false_r. simpl. repeat split; discriminate.
    + rewrite orb_false_r. repeat split; discriminate.
  - destruct (MermaidRegex_match line) as [g|] eqn:Em; simpl.
    + rewrite orb_true_r. destruct (blank_line ol); simpl;
        rewrite <- ?app_assoc; repeat split; discriminate.
    + rewrite orb_false_r. repeat split; discriminate.
Qed.

Lemma fold_refines lines : forall st,
  wf st ->
  let st' := fold_left step lines st in
  wf st'
  /\ new_lines st' = new_lines st ++ rewrite (scan_of st) (old_line st) lines
  /\ is_mermaid st' = is_mermaid st || existsb is_open (roles (scan_of st) lines).
Proof.
  induction lines as [|line rest IH]; intros st Hwf; simpl.
  - rewrite app_nil_r, orb_false_r. auto.
  - destruct (step_refines st line Hwf) as (Hwf' & Hsc & Hnl & Hol & Him).
    destruct (IH _ Hwf') as (W & N & I).
    split; [exact W|]. rewrite N, I, Hsc, Hnl, Hol, Him.
    rewrite <- app_assoc, orb_assoc. auto.
Qed.

(** A block is opened exactly when some line has the opening-fence shape. *)
Lemma roles_open_has_fence lines :
  existsb is_open (roles Outside lines) = has_fence lines.
Proof.
  induction lines as [|line rest IH]; simpl; [reflexivity|].
  unfold is_fence. destruct (MermaidRegex_match line); simpl; auto.
Qed.

Lemma loop_new_lines lines : new_lines (loop lines) = rewrite Outside [] lines.
Proof. apply (fold_refines lines state0 wf_state0). Qed.

Lemma loop_is_mermaid lines : is_mermaid (loop lines) = has_fence lines.
Proof.
  rewrite <- roles_open_has_fence. apply (fold_refines lines state0 wf_state0).
Qed.

Lemma loop_wf lines : wf (loop lines).
Proof. apply (fold_refines lines state0 wf_state0). Qed.

(** Inside a block [mermaid_sign] holds a glyph: the closing pattern is never
    built from the initial empty string. *)
Lemma loop_sign_bound lines :
  in_mermaid_code (loop lines) = true ->
  exists g, mermaid_sign (loop lines) = Some g.
Proof.
  intros H. destruct (loop_wf lines) as (_ & _ & Hg).
  destruct (mermaid_sign (loop lines)) as [g|]; [eauto|now elim (Hg H)].
Qed.

(** [run] in closed form. *)
Lemma run_unfold self lines :
  run self lines =
  if has_fence lines then
    match self_mermaid_js_url self with
    | Unset => Raise AttributeError
    | a => Return (rewrite Outside [] lines ++ init_block a)
    end
  else Return (rewrite Outside [] lines).
Proof.
  unfold run, get_mermaid_js_url, init_block.
  rewrite loop_is_mermaid, loop_new_lines.
  destruct (has_fence lines); [|reflexivity].
  destruct (self_mermaid_js_url self) as [| |u]; simpl; [reflexivity| |].
  - rewrite <- app_assoc. reflexivity.
  - destruct (truthy u); simpl; rewrite <- ?app_assoc; reflexivity.
Qed.

Lemma has_fence_false lines :
  has_fence lines = false <-> forall l, In l lines -> MermaidRegex_match l = None.
Proof.
  unfold has_fence, is_fence. split.
  - intros H l Hl. destruct (MermaidRegex_match l) eqn:E; [|reflexivity].
    assert (existsb (fun line => match MermaidRegex_match line with
                                 | Some _ => true | None => false end) lines = true)
      by (apply existsb_exists; exists l; rewrite E; auto).
    congruence.
  - intros H. induction lines as [|l rest IH]; simpl; [reflexivity|].
    rewrite (H l (or_introl eq_refl)). apply IH. intros; apply H; now right.
Qed.

Lemma rewrite_no_fence lines : forall prev,
  has_fence lines = false -> rewrite Outside prev lines = lines.
Proof.
  induction lines as [|l rest IH]; intros prev H; simpl in *; [reflexivity|].
  apply orb_false_iff in H as [Hl Hr]. unfold is_fence in Hl.
  destruct (MermaidRegex_match l); [discriminate|]. simpl. now rewrite IH.
Qed.

Lemma init_binds cfg :
  self_mermaid_js_url (init cfg) =
  match mermaid_js_url cfg with
  | None => PyNone
  | Some u =>
      if truthy u then Unset
      else if str_eqb (mermaid_version cfg) (lit "latest")
              || negb (truthy (mermaid_version cfg))
      then PyStr url_default
      else PyStr (url_versioned (mermaid_version cfg))
  end.
Proof.
  unfold init. destruct (mermaid_js_url cfg) as [u|]; [|reflexivity].
  destruct (truthy u); [reflexivity|].
  destruct (_ || _); reflexivity.
Qed.

(** ** Configuration and the appended script lines *)

Lemma str_eqb_eq a b : str_eqb a b = true <-> a = b.
Proof.
  unfold str_eqb. destruct (list_eq_dec N.eq_dec a b); split; intros; congruence.
Qed.

(** With [mermaid_js_url] empty and the version ['latest'] or empty, the
    script tag points at the unversioned URL. *)
Lemma process_default_url version lines :
  has_fence lines = true ->
  version = lit "latest" \/ version = [] ->
  process (mkConfig version (Some [])) lines =
  Return (rewrite Outside [] lines ++ [[]; script_src url_default; script_init]).
Proof.
  intros Hf Hv. unfold process. rewrite run_unfold, Hf, init_binds. simpl.
  destruct Hv as [-> | ->]; reflexivity.
Qed.

(** With [mermaid_js_url] empty and any other version, the script tag points
    at the versioned URL. *)
Lemma process_versioned_url version lines :
  has_fence lines = true ->
  version <> lit "latest" -> version <> [] ->
  process (mkConfig version (Some [])) lines =
  Return (rewrite Outside [] lines
          ++ [[]; script_src (url_versioned version); script_init]).
Proof.
  intros Hf Hl He. unfold process. rewrite run_unfold, Hf, init_binds. simpl.
  destruct (str_eqb version (lit "latest")) eqn:E.
  - apply str_eqb_eq in E. contradiction.
  - destruct version; [contradiction|]. reflexivity.
Qed.

(** With [mermaid_js_url] set to [None], the deferred script is appended. *)
Lemma process_sentinel version lines :
  has_fence lines = true ->
  process (mkConfig version None) lines =
  Return (rewrite Outside [] lines ++ [[]; script_deferred]).
Proof.
  intros Hf. unfold process. rewrite run_unfold, Hf, init_binds. reflexivity.
Qed.

(** [run] returns unless a fence was found and the attribute is unbound. *)
Lemma run_returns self lines :
  has_fence lines = false \/ self_mermaid_js_url self <> Unset ->
  exists out, run self lines = Return out.
Proof.
  intros H. rewrite run_unfold.
  destruct (has_fence lines); [|eauto].
  destruct H as [H|H]; [discriminate|].
  destruct (self_mermaid_js_url self); [now elim H| |]; eauto.
Qed.

(** Constructing and running raises exactly when a fence is found under a
    non-empty [mermaid_js_url]. *)
Lemma process_raises_iff cfg lines e :
  process cfg lines = Raise e <->
  has_fence lines = true /\ exists u, mermaid_js_url cfg = Some u /\ u <> [].
Proof.
  unfold process. rewrite run_unfold, init_binds.
  destruct (has_fence lines); [|split; [discriminate|intros [? _]; discriminate]].
  destruct (mermaid_js_url cfg) as [[|c u]|]; simpl.
  - destruct (_ || _); (split; [discriminate|]); intros (_ & u & [= <-] & H);
      now elim H.
  - destruct e. split; [|reflexivity]. intros _. split; [reflexivity|].
    exists (c :: u). split; [reflexivity|discriminate].
  - split; [discriminate|]. intros (_ & u & H & _). discriminate.
Qed.

(** C1 (the code departs from the claim): when [mermaid_js_url] is configured
    as a non-empty string and the document holds an opening fence, constructing
    the preprocessor and calling [run] raises [AttributeError]: [__init__]
    stored the URL under [mermaid_url], and [run] reads [mermaid_js_url]. *)
Theorem C1_explicit_url_raises version url lines :
  truthy url = true ->
  has_fence lines = true ->
  process (mkConfig version (Some url)) lines = Raise AttributeError.
Proof.
  intros Hu Hf. unfold process. rewrite run_unfold, Hf, init_binds. simpl.
  rewrite Hu. reflexivity.
Qed.

Lemma C1_explicit_url_raises_witness :
  process (mkConfig (lit "latest") (Some (lit "https://example.com/mermaid.min.js")))
          [lit "```mermaid"]
  = Raise AttributeError.
Proof.
  apply C1_explicit_url_raises; reflexivity.
Defined.

(** C2 (the code departs from the claim): with an explicit script URL and a
    document holding one mermaid block, [run] returns no output at all, hence
    no script tag carrying that URL: it raises [AttributeError]. *)
Theorem C2_explicit_url_no_script_tag :
  process (mkConfig (lit "latest") (Some (lit "https://cdn.example/mermaid.js")))
          [lit "```mermaid"; lit "graph TD"; lit "```"]
  = Raise AttributeError.
Proof. vm_compute. reflexivity. Qed.

(** C3: a document without a line of the opening-fence shape is returned as
    it is, with nothing appended, whatever the configuration. *)
Theorem C3_identity_without_fence self lines :
  (forall l, In l lines -> MermaidRegex_match l = None) ->
  run self lines = Return lines.
Proof.
  intros H. apply has_fence_false in H.
  rewrite run_unfold, H. now rewrite rewrite_no_fence.
Qed.

Lemma C3_identity_without_fence_witness :
  run (init (mkConfig (lit "latest") (Some (lit "https://example.com/m.js"))))
      [lit "# Title"; lit " ```mermaid"; lit "```MERMAID"; lit "```"; lit "text  "]
  = Return [lit "# Title"; lit " ```mermaid"; lit "```MERMAID"; lit "```"; lit "text  "].
Proof.
  apply C3_identity_without_fence.
  intros l Hl. each_member Hl reflexivity.
Defined.

(** C10: with [mermaid_js_url] set to [None] and a mermaid block in the
    document, the last element of the result is the whole deferred script, one
    string with newline characters inside. *)
Theorem C10_deferred_script_is_one_element version lines :
  has_fence lines = true ->
  exists out,
    process (mkConfig version None) lines = Return out
    /\ last out [] = script_deferred
    /\ count_occ N.eq_dec script_deferred nl = 10%nat.
Proof.
  intros Hf. eexists. split; [apply process_sentinel, Hf|]. split.
  - rewrite (app_assoc _ [[]] [script_deferred]). apply last_last.
  - vm_compute. reflexivity.
Qed.

Lemma C10_deferred_script_is_one_element_witness :
  exists out,
    process (mkConfig (lit "latest") None) [lit "~~~mermaid"; lit "graph TD"; lit "~~~"]
    = Return out
    /\ last out [] = script_deferred
    /\ count_occ N.eq_dec script_deferred nl = 10%nat.
Proof.
  apply C10_deferred_script_is_one_element. reflexivity.
Defined.

(** ** The opening-fence pattern *)

Lemma strip_prefix_some p : forall s r,
  strip_prefix p s = Some r <-> s = p ++ r.
Proof.
  induction p as [|x p IH]; intros s r; simpl.
  - split; congruence.
  - destruct s as [|y s]; [split; discriminate|].
    destruct (x =? y) eqn:E.
    + apply N.eqb_eq in E. subst y. rewrite IH. split; congruence.
    + apply N.eqb_neq in E. split; [discriminate|]. intros [= H _]. now elim E.
Qed.

Lemma word_mermaid_some s r :
  word_mermaid s = Some r <->
  exists m, (m = 77 \/ m = 109) /\ s = m :: lit "ermaid" ++ r.
Proof.
  unfold word_mermaid. destruct s as [|m s].
  - split; [discriminate|]. intros (m & _ & H). discriminate.
  - destruct ((m =? 77) || (m =? 109)) eqn:E.
    + rewrite strip_prefix_some. split.
      * intros ->. exists m. split; [|reflexivity].
        apply orb_true_iff in E as [E|E]; apply N.eqb_eq in E; auto.
      * intros (m' & _ & [= -> ->]). reflexivity.
    + split; [discriminate|]. intros (m' & Hm & [= -> ->]).
      destruct Hm as [-> | ->]; discriminate.
Qed.

Lemma blanks_dollar_true s :
  blanks_dollar s = true <->
  exists ws e, s = ws ++ e /\ forallb blank ws = true /\ (e = [] \/ e = [nl]).
Proof.
  unfold blanks_dollar. split.
  - intros H. destruct (dropwhile_split blank s) as (ws & E & Hws).
    exists ws, (dropwhile blank s). repeat split; auto.
    destruct (dropwhile blank s) as [|c [|d t]]; simpl in H; auto; [|discriminate].
    apply N.eqb_eq in H. subst. auto.
  - intros (ws & e & -> & Hws & He). rewrite dropwhile_app_all by exact Hws.
    destruct He as [-> | ->]; reflexivity.
Qed.

(** The pattern on a line that starts with three glyphs. *)
Lemma MermaidRegex_match_glyphs g1 g2 g3 rest :
  MermaidRegex_match (glyph_char g1 :: glyph_char g2 :: glyph_char g3 :: rest) =
  match word_mermaid (dropwhile blank rest) with
  | Some rest' => if blanks_dollar rest' then Some g3 else None
  | None => None
  end.
Proof.
  unfold MermaidRegex_match. now rewrite !glyph_of_char.
Qed.

(** A match starts with three glyphs, the third of which is the group. *)
Lemma MermaidRegex_match_some line g :
  MermaidRegex_match line = Some g ->
  exists g1 g2 rest rest',
    line = glyph_char g1 :: glyph_char g2 :: glyph_char g :: rest
    /\ word_mermaid (dropwhile blank rest) = Some rest'
    /\ blanks_dollar rest' = true.
Proof.
  unfold MermaidRegex_match.
  destruct line as [|a [|b [|c rest]]]; try discriminate.
  destruct (glyph_of a) as [g1|] eqn:Ea; [|discriminate].
  destruct (glyph_of b) as [g2|] eqn:Eb; [|discriminate].
  destruct (glyph_of c) as [g3|] eqn:Ec; [|discriminate].
  destruct (word_mermaid (dropwhile blank rest)) as [rest'|] eqn:Ew; [|discriminate].
  destruct (blanks_dollar rest') eqn:Ed; [|discriminate].
  intros [= <-]. exists g1, g2, rest, rest'.
  apply glyph_of_some in Ea, Eb, Ec. subst. auto.
Qed.

(** C4 (as amended): a line whose fence is three repetitions of one glyph is
    taken as an opening fence exactly when it consists of those three glyphs
    at the very start of the line, optional spaces or tabs, the word "mermaid"
    or "Mermaid", optional spaces or tabs, an optional final newline, and
    nothing else. *)
Theorem C4_uniform_opening_fence line :
  (exists g, MermaidRegex_match line = Some g
             /\ firstn 3 line = [glyph_char g; glyph_char g; glyph_char g])
  <-> uniform_opening_fence line.
Proof.
  split.
  - intros (g & Hm & H3).
    apply MermaidRegex_match_some in Hm as (g1 & g2 & rest & rest' & -> & Hw & Hd).
    simpl in H3. injection H3 as E1 E2.
    apply word_mermaid_some in Hw as (m & Hm & Hw).
    apply blanks_dollar_true in Hd as (ws2 & e & -> & Hws2 & He).
    destruct (dropwhile_split blank rest) as (ws1 & Er & Hws1).
    exists g, ws1, m, ws2, e. rewrite E1, E2. simpl.
    rewrite Er at 1. rewrite Hw. auto.
  - intros (g & ws1 & m & ws2 & e & -> & Hws1 & Hm & Hws2 & He).
    exists g. split; [|reflexivity].
    cbn [app]. rewrite MermaidRegex_match_glyphs.
    rewrite dropwhile_app_all by exact Hws1.
    assert (Hb : dropwhile blank (m :: lit "ermaid" ++ ws2 ++ e)
                 = m :: lit "ermaid" ++ ws2 ++ e)
      by (destruct Hm as [-> | ->]; reflexivity).
    rewrite Hb.
    assert (Hw : word_mermaid (m :: lit "ermaid" ++ ws2 ++ e) = Some (ws2 ++ e))
      by (apply word_mermaid_some; eauto).
    rewrite Hw.
    assert (Hd : blanks_dollar (ws2 ++ e) = true)
      by (apply blanks_dollar_true; eauto).
    now rewrite Hd.
Qed.

Lemma C4_uniform_opening_fence_witness :
  uniform_opening_fence (lit "~~~" ++ [9; 32] ++ lit "Mermaid  " ++ [nl]).
Proof.
  apply C4_uniform_opening_fence. exists Tilde. split; reflexivity.
Defined.

(** C4 refuted as stated: the upper-case word, the indented fence and the
    fence followed by a carriage return are opening fences in the
    specification's words, and the pattern takes none of them. *)
Lemma C4_counterexample :
  ~ (MermaidRegex_match (lit "```MERMAID") <> None
     <-> claimed_opening_fence (lit "```MERMAID"))
  /\ ~ (MermaidRegex_match (lit "  ~~~mermaid") <> None
        <-> claimed_opening_fence (lit "  ~~~mermaid"))
  /\ ~ (MermaidRegex_match (lit "~~~mermaid" ++ [13]) <> None
        <-> claimed_opening_fence (lit "~~~mermaid" ++ [13])).
Proof.
  repeat split; intros [_ H]; apply H; try reflexivity.
  - exists [], Backtick, [], (lit "MERMAID"), []. repeat split.
  - exists (lit "  "), Tilde, [], (lit "mermaid"), []. repeat split.
  - exists [], Tilde, [], (lit "mermaid"), [13]. repeat split.
Qed.

(** C9: a fence whose three glyphs differ opens a block all the same, and the
    glyph kept for the closing fence is the third one: after ["~~`mermaid"]
    three tildes are content and three backticks close the block. *)
Theorem C9_mixed_fence_keeps_last_glyph :
  MermaidRegex_match (lit "~~`mermaid") = Some Backtick
  /\ MermaidRegex_match (lit "`~~mermaid") = Some Tilde
  /\ (forall st line g,
        in_mermaid_code st = false ->
        MermaidRegex_match line = Some g ->
        nth_error line 2 = Some (glyph_char g)
        /\ in_mermaid_code (step st line) = true
        /\ mermaid_sign (step st line) = Some g)
  /\ process (mkConfig (lit "latest") None)
             [lit "~~`mermaid"; lit "a"; lit "~~~"; lit "```"; lit "b"]
     = Return [div_open; lit "a"; lit "~~~"; div_close; []; lit "b"; [];
               script_deferred].
Proof.
  split; [reflexivity|]. split; [reflexivity|]. split; [|vm_compute; reflexivity].
  intros st line g Hin Hm.
  unfold step, look, emit. rewrite Hin. simpl. rewrite Hm. simpl.
  apply MermaidRegex_match_some in Hm as (g1 & g2 & rest & rest' & -> & _).
  auto.
Qed.

Lemma C9_mixed_fence_keeps_last_glyph_witness :
  nth_error (lit "~~`mermaid") 2 = Some (glyph_char Backtick)
  /\ in_mermaid_code (step state0 (lit "~~`mermaid")) = true
  /\ mermaid_sign (step state0 (lit "~~`mermaid")) = Some Backtick.
Proof.
  destruct C9_mixed_fence_keeps_last_glyph as (_ & _ & H & _).
  apply H; reflexivity.
Defined.

(** ** What becomes of each line *)

Lemma rstrip_right_trimmed l : right_trimmed (rstrip l) l.
Proof.
  destruct (rstrip_spec l) as (ws & E & Hws & Hl).
  exists ws. repeat split; auto.
  destruct (rstrip l) as [|c t] eqn:R; [now left|right].
  apply Hl; [reflexivity|discriminate].
Qed.

Lemma rewrite_keeps lines : forall s prev i line,
  nth_error lines i = Some line ->
  match nth_error (roles s lines) i with
  | Some Content => In (rstrip line) (rewrite s prev lines)
  | Some Plain => In line (rewrite s prev lines)
  | _ => True
  end.
Proof.
  induction lines as [|l rest IH]; intros s prev i line Hi.
  - destruct i; discriminate.
  - destruct i as [|i]; simpl in *.
    + injection Hi as ->. destruct (role_of s line); simpl; auto.
    + specialize (IH (next_scan s (role_of s l)) l i line Hi).
      destruct (nth_error (roles (next_scan s (role_of s l)) rest) i) as [[]|];
        auto; apply in_or_app; now right.
Qed.

(** C5: the result is the concatenation, in input order, of what each line
    contributes, followed by the script lines, if any; a content line of a
    block contributes itself right-trimmed and nothing else, a line outside
    every block that opens none contributes itself unchanged. *)
Theorem C5_lines_pass_through self lines out :
  run self lines = Return out ->
  (exists tail, out = rewrite Outside [] lines ++ tail)
  /\ forall i line,
       nth_error lines i = Some line ->
       match nth_error (roles Outside lines) i with
       | Some Content => In (rstrip line) out /\ right_trimmed (rstrip line) line
       | Some Plain => In line out
       | _ => True
       end.
Proof.
  intros Hrun.
  assert (Ht : exists tail, out = rewrite Outside [] lines ++ tail).
  { rewrite run_unfold in Hrun. destruct (has_fence lines).
    - destruct (self_mermaid_js_url self); [discriminate| |];
        injection Hrun as <-; eauto.
    - injection Hrun as <-. exists []. now rewrite app_nil_r. }
  split; [exact Ht|]. destruct Ht as (tail & ->).
  intros i line Hi.
  pose proof (rewrite_keeps lines Outside [] i line Hi) as H.
  destruct (nth_error (roles Outside lines) i) as [[]|]; auto.
  - split; [apply in_or_app; now left | apply rstrip_right_trimmed].
  - apply in_or_app; now left.
Qed.

Lemma C5_lines_pass_through_witness :
  let lines := [lit "intro  "; lit "~~~mermaid"; lit "graph TD; " ; lit "~~~"; lit "outro "] in
  let out := [lit "intro  "; []; div_open; lit "graph TD;"; div_close; [];
              lit "outro "; []; script_deferred] in
  (exists tail, out = rewrite Outside [] lines ++ tail)
  /\ forall i line,
       nth_error lines i = Some line ->
       match nth_error (roles Outside lines) i with
       | Some Content => In (rstrip line) out /\ right_trimmed (rstrip line) line
       | Some Plain => In line out
       | _ => True
       end.
Proof.
  intros lines out.
  apply (C5_lines_pass_through (init (mkConfig (lit "latest") None))).
  vm_compute. reflexivity.
Defined.

(** ** Blocks that never close *)

Lemma fold_old_line lines : forall st,
  old_line (fold_left step lines st) = last lines (old_line st).
Proof.
  induction lines as [|l rest IH] using rev_ind; intros st; [reflexivity|].
  rewrite fold_left_app, last_last. reflexivity.
Qed.

Lemma rewrite_unclosed g rest : forall prev,
  (forall l, In l rest -> end_match (Some g) l = false) ->
  rewrite (InsideBlock g) prev rest = map rstrip rest.
Proof.
  induction rest as [|l rest IH]; intros prev H; simpl; [reflexivity|].
  rewrite (H l (or_introl eq_refl)). simpl.
  rewrite IH; [reflexivity|]. intros; apply H; now right.
Qed.

Lemma rewrite_app_loop pre rest :
  rewrite Outside [] (pre ++ rest) =
  new_lines (loop pre) ++ rewrite (scan_of (loop pre)) (last pre []) rest.
Proof.
  rewrite <- loop_new_lines. unfold loop at 1. rewrite fold_left_app.
  destruct (fold_refines rest (loop pre) (loop_wf pre)) as (_ & N & _).
  fold (loop pre). rewrite N. unfold loop at 3. now rewrite fold_old_line.
Qed.

(** C6: once a block is opened and no later line is three repetitions of the
    glyph that opened it (followed by blanks only), the block stays open: what
    the scan emitted before the fence is followed by the separator, the
    opening tag, every later line right-trimmed, and the script lines; no
    closing tag is put in, and a later fence of the other glyph, its opening
    line included, is content like the rest. *)
Theorem C6_mismatched_fence_never_closes self pre fence g rest out :
  in_mermaid_code (loop pre) = false ->
  MermaidRegex_match fence = Some g ->
  (forall l, In l rest -> end_match (Some g) l = false) ->
  run self (pre ++ fence :: rest) = Return out ->
  out = new_lines (loop pre)
        ++ (if blank_line (last pre []) then [] else [[]])
        ++ [div_open]
        ++ map rstrip rest
        ++ init_block (self_mermaid_js_url self).
Proof.
  intros Hout Hm Hrest Hrun.
  assert (Hf : has_fence (pre ++ fence :: rest) = true).
  { unfold has_fence. rewrite existsb_app. simpl. unfold is_fence at 2.
    rewrite Hm. simpl. apply orb_true_r. }
  rewrite run_unfold, Hf in Hrun.
  assert (E : out = rewrite Outside [] (pre ++ fence :: rest)
                    ++ init_block (self_mermaid_js_url self))
    by (destruct (self_mermaid_js_url self); [discriminate| |]; now injection Hrun).
  rewrite E, rewrite_app_loop. unfold scan_of. rewrite Hout. simpl.
  rewrite Hm. simpl. rewrite rewrite_unclosed by exact Hrest.
  rewrite <- !app_assoc. reflexivity.
Qed.

Lemma C6_mismatched_fence_never_closes_witness :
  [lit "text"; []; div_open; lit "A-->B"; lit "~~~"; lit "~~~mermaid"; lit "C-->D";
   lit "~~~"; lit "after"; []; script_src url_default; script_init]
  = new_lines (loop [lit "text"])
    ++ (if blank_line (last [lit "text"] []) then [] else [[]])
    ++ [div_open]
    ++ map rstrip [lit "A-->B  "; lit "~~~"; lit "~~~mermaid"; lit "C-->D"; lit "~~~ ";
                   lit "after"]
    ++ init_block (self_mermaid_js_url (init (mkConfig (lit "latest") (Some [])))).
Proof.
  apply (C6_mismatched_fence_never_closes _ _ (lit "```mermaid") Backtick).
  - reflexivity.
  - reflexivity.
  - intros l Hl. each_member Hl reflexivity.
  - vm_compute. reflexivity.
Defined.

(** ** Exchanging tildes and backticks *)

Lemma swap_glyph_char g : swap_char (glyph_char g) = glyph_char (other g).
Proof. destruct g; reflexivity. Qed.

Lemma swap_open_fence line g :
  MermaidRegex_match line = Some g ->
  MermaidRegex_match (swap_fence line) = Some (other g).
Proof.
  intros H. pose proof H as H'.
  apply MermaidRegex_match_some in H' as (g1 & g2 & rest & rest' & -> & Hw & Hd).
  unfold swap_fence. simpl. rewrite !swap_glyph_char.
  rewrite MermaidRegex_match_glyphs, Hw, Hd. reflexivity.
Qed.

Lemma end_match_some g line :
  end_match (Some g) line = true <->
  exists rest, line = glyph_char g :: glyph_char g :: glyph_char g :: rest
               /\ blanks_dollar rest = true.
Proof.
  unfold end_match. split.
  - destruct line as [|a [|b [|c rest]]]; try discriminate.
    intros H. apply andb_true_iff in H as [H Hd].
    apply andb_true_iff in H as [H Hc]. apply andb_true_iff in H as [Ha Hb].
    apply N.eqb_eq in Ha, Hb, Hc. subst. eauto.
  - intros (rest & -> & Hd). now rewrite !N.eqb_refl, Hd.
Qed.

Lemma swap_close_fence line g :
  end_match (Some g) line = true ->
  end_match (Some (other g)) (swap_fence line) = true.
Proof.
  intros H. apply end_match_some in H as (rest & -> & Hd).
  apply end_match_some. exists rest. split; [|exact Hd].
  unfold swap_fence. simpl. now rewrite !swap_glyph_char.
Qed.

(** A line that starts with a glyph and has three characters or more is not
    blank. *)
Lemma blank_line_glyphs g1 b c rest :
  blank_line (glyph_char g1 :: b :: c :: rest) = false.
Proof. destruct g1; reflexivity. Qed.

Lemma swap_fence_not_blank g1 g2 g3 rest :
  blank_line (swap_fence (glyph_char g1 :: glyph_char g2 :: glyph_char g3 :: rest))
  = blank_line (glyph_char g1 :: glyph_char g2 :: glyph_char g3 :: rest).
Proof.
  unfold swap_fence. simpl. rewrite !swap_glyph_char.
  now rewrite !blank_line_glyphs.
Qed.

(** The scan of the exchanged document runs in step with the scan of the
    document, provided no content line would close a block of the other
    glyph. *)
Lemma swap_rewrite lines : forall s prev prev',
  blank_line prev' = blank_line prev ->
  (forall l g, In l (content_lines s lines) -> end_match (Some g) l = false) ->
  rewrite (swap_scan s) prev' (swap_fences s lines) = rewrite s prev lines
  /\ existsb is_open (roles (swap_scan s) (swap_fences s lines))
     = existsb is_open (roles s lines).
Proof.
  induction lines as [|line rest IH]; intros s prev prev' Hb Hsafe;
    [split; reflexivity|].
  destruct s as [|g]; simpl in *.
  - destruct (MermaidRegex_match line) as [g|] eqn:Em; simpl in *.
    + rewrite (swap_open_fence _ _ Em). simpl. rewrite Hb.
      pose proof Em as Em'.
      apply MermaidRegex_match_some in Em' as (g1 & g2 & r & r' & -> & _).
      destruct (IH (InsideBlock g) _ _ (swap_fence_not_blank g1 g2 g r) Hsafe)
        as [E _].
      simpl in E. rewrite E. auto.
    + rewrite Em. simpl.
      destruct (IH Outside line line eq_refl Hsafe) as [E1 E2].
      simpl in E1, E2. rewrite E1, E2. auto.
  - destruct (end_match (Some g) line) eqn:Em; simpl in *.
    + rewrite (swap_close_fence _ _ Em). simpl.
      pose proof Em as Em'. apply end_match_some in Em' as (r & -> & _).
      destruct (IH Outside _ _ (swap_fence_not_blank g g g r) Hsafe) as [E1 E2].
      simpl in E1, E2. rewrite E1, E2. auto.
    + rewrite (Hsafe line (other g) (or_introl eq_refl)). simpl.
      destruct (IH (InsideBlock g) line line eq_refl) as [E1 E2];
        [intros; apply Hsafe; now right|].
      simpl in E1, E2. rewrite E1, E2. auto.
Qed.

(** C7 (as amended): on a document none of whose block content lines is a
    closing-fence line of either glyph, rewriting every opening fence and the
    closing fence of its block in the other glyph does not change what [run]
    gives, result or exception, under any configuration. *)
Theorem C7_glyph_exchange self lines :
  (forall l g, In l (content_lines Outside lines) -> end_match (Some g) l = false) ->
  run self (swap_fences Outside lines) = run self lines.
Proof.
  intros Hsafe.
  destruct (swap_rewrite lines Outside [] [] eq_refl Hsafe) as [Hr Ho].
  simpl in Hr, Ho. rewrite !roles_open_has_fence in Ho.
  now rewrite !run_unfold, Hr, Ho.
Qed.

Lemma C7_glyph_exchange_witness :
  run (init (mkConfig (lit "9.4.0") (Some [])))
      (swap_fences Outside
         [lit "a"; lit "```mermaid"; lit "x-->y"; lit "```"; lit "~~~ Mermaid";
          lit "```mermaid"; lit "~~~"])
  = run (init (mkConfig (lit "9.4.0") (Some [])))
        [lit "a"; lit "```mermaid"; lit "x-->y"; lit "```"; lit "~~~ Mermaid";
         lit "```mermaid"; lit "~~~"].
Proof.
  apply C7_glyph_exchange.
  intros l g Hl. each_member Hl ltac:(destruct g; reflexivity).
Defined.

(** C7 refuted as stated: in a backtick block that holds the content line
    ["~~~"], rewriting the two fences with tildes turns that content line into
    the closing fence, and the result differs. *)
Lemma C7_counterexample :
  let cfg := mkConfig (lit "latest") (Some []) in
  let doc := [lit "```mermaid"; lit "~~~"; lit "```"] in
  swap_fences Outside doc = [lit "~~~mermaid"; lit "~~~"; lit "~~~"]
  /\ process cfg doc
     = Return [div_open; lit "~~~"; div_close; []; [];
               script_src url_default; script_init]
  /\ process cfg (swap_fences Outside doc)
     = Return [div_open; div_close; []; lit "~~~"; [];
               script_src url_default; script_init]
  /\ process cfg (swap_fences Outside doc) <> process cfg doc.
Proof.
  repeat split; try (vm_compute; reflexivity).
  vm_compute. discriminate.
Qed.

(** ** Running twice *)

Lemma has_fence_app a b : has_fence (a ++ b) = has_fence a || has_fence b.
Proof. apply existsb_app. Qed.

Lemma init_block_fence_free a : has_fence (init_block a) = false.
Proof.
  unfold init_block. destruct (attr_truthy a); reflexivity.
Qed.

Lemma rewrite_fence_free lines : forall s prev,
  (forall l, In l (content_lines s lines) -> MermaidRegex_match (rstrip l) = None) ->
  has_fence (rewrite s prev lines) = false.
Proof.
  induction lines as [|line rest IH]; intros s prev H; [reflexivity|].
  simpl in *. rewrite has_fence_app.
  destruct s as [|g]; simpl in *.
  - destruct (MermaidRegex_match line) as [g|] eqn:Em; simpl in *.
    + rewrite IH by exact H. destruct (blank_line prev); reflexivity.
    + rewrite IH by exact H. unfold has_fence, is_fence. simpl. now rewrite Em.
  - destruct (end_match (Some g) line) eqn:Em; simpl in *.
    + rewrite IH by exact H. reflexivity.
    + rewrite IH by (intros; apply H; now right).
      unfold has_fence, is_fence. simpl. now rewrite (H line (or_introl eq_refl)).
Qed.

(** C8 (as amended): on a document with a mermaid block none of whose content
    lines is, once right-trimmed, itself of the opening-fence shape, a second
    [run] over the result of the first finds no fence, wraps nothing again,
    and returns that result unchanged: no second script block is appended. *)
Theorem C8_second_run_is_identity self lines out :
  has_fence lines = true ->
  (forall l, In l (content_lines Outside lines) ->
             MermaidRegex_match (rstrip l) = None) ->
  run self lines = Return out ->
  has_fence out = false /\ run self out = Return out.
Proof.
  intros Hf Hc Hrun.
  assert (Hout : has_fence out = false).
  { rewrite run_unfold, Hf in Hrun.
    destruct (self_mermaid_js_url self) eqn:Ea; [discriminate| |];
      injection Hrun as <-;
      now rewrite has_fence_app, rewrite_fence_free, init_block_fence_free. }
  split; [exact Hout|].
  rewrite run_unfold, Hout. now rewrite rewrite_no_fence.
Qed.

Lemma C8_second_run_is_identity_witness :
  let self := init (mkConfig (lit "latest") (Some [])) in
  let out := [lit "intro"; []; div_open; lit "graph TD;"; div_close; [];
              []; script_src url_default; script_init] in
  has_fence out = false /\ run self out = Return out.
Proof.
  intros self out.
  apply (C8_second_run_is_identity self
           [lit "intro"; lit "```mermaid"; lit "graph TD;  "; lit "```"]).
  - reflexivity.
  - intros l Hl. each_member Hl reflexivity.
  - vm_compute. reflexivity.
Defined.

(** C8 refuted as stated: on a plain one-block document the second [run]
    returns the first result as it is, with no second script block; and where
    a block holds a fence-shaped content line, the second [run] does find a
    fence in the first result. *)
Lemma C8_counterexample :
  let cfg := mkConfig (lit "latest") (Some []) in
  let doc := [lit "```mermaid"; lit "graph TD"; lit "```"] in
  let out := [div_open; lit "graph TD"; div_close; []; [];
              script_src url_default; script_init] in
  let nested := [lit "```mermaid"; lit "~~~mermaid"; lit "```"] in
  let out' := [div_open; lit "~~~mermaid"; div_close; []; [];
               script_src url_default; script_init] in
  (has_fence doc = true
   /\ process cfg doc = Return out
   /\ process cfg out = Return out
   /\ process cfg out
      <> Return (out ++ init_block (self_mermaid_js_url (init cfg))))
  /\ (process cfg nested = Return out' /\ has_fence out' = true).
Proof.
  repeat split; try (vm_compute; reflexivity).
  vm_compute. discriminate.
Qed.

(** ** [strip_notprintable] *)

Lemma py_in_true x s : py_in x s = true <-> In x s.
Proof.
  unfold py_in. rewrite existsb_exists. split.
  - intros (y & Hy & E). apply N.eqb_eq in E. now subst.
  - intros H. exists x. split; [exact H | apply N.eqb_refl].
Qed.

Lemma string_printable_below : forall c, In c string_printable -> c < 127.
Proof.
  apply Forall_forall. vm_compute.
  repeat (constructor; [reflexivity|]). constructor.
Qed.

(** Membership in [string.printable] is membership in the two ranges. *)
Lemma printable_ranges c : py_in c string_printable = printable_range c.
Proof.
  destruct (N.ltb_spec c 127) as [Hlt|Hge].
  - assert (H : forallb (fun n => Bool.eqb (py_in n string_printable)
                                           (printable_range n))
                        (map N.of_nat (seq 0 127)) = true)
      by (vm_compute; reflexivity).
    rewrite forallb_forall in H.
    apply Bool.eqb_prop, H, in_map_iff.
    exists (N.to_nat c). split; [apply N2Nat.id|].
    apply in_seq. lia.
  - destruct (py_in c string_printable) eqn:E.
    + apply py_in_true, string_printable_below in E. lia.
    + unfold printable_range. symmetry.
      apply orb_false_iff. split; apply andb_false_iff; right;
        apply N.leb_gt; lia.
Qed.

(** X1: [strip_notprintable] keeps, in order, exactly the characters that
    are tab to carriage return (9..13) or space to tilde (32..126), and drops
    every other one, every character beyond ASCII included. *)
Theorem strip_notprintable_ranges myStr :
  strip_notprintable myStr = filter printable_range myStr.
Proof.
  unfold strip_notprintable. apply filter_ext. intros c. apply printable_ranges.
Qed.

(** X2: [strip_notprintable] returns its argument unchanged exactly when
    every character of it is printable; applying it a second time changes
    nothing, and the result is never longer than the argument. *)
Theorem strip_notprintable_fixed myStr :
  (strip_notprintable myStr = myStr <-> forallb printable_range myStr = true)
  /\ strip_notprintable (strip_notprintable myStr) = strip_notprintable myStr
  /\ (List.length (strip_notprintable myStr) <= List.length myStr)%nat.
Proof.
  rewrite !strip_notprintable_ranges. split; [|split].
  - induction myStr as [|c s IH]; simpl; [tauto|].
    destruct (printable_range c) eqn:E; simpl.
    + rewrite <- IH. split; congruence.
    + split; [|discriminate]. intros H.
      pose proof (filter_length_le printable_range s) as L.
      rewrite H in L. simpl in L. lia.
  - induction myStr as [|c s IH]; simpl; [reflexivity|].
    destruct (printable_range c) eqn:E; simpl; [rewrite E|]; congruence.
  - apply filter_length_le.
Qed.

(** ** The two fence patterns, in full *)

(** X3: the opening pattern takes a line exactly when it is three characters,
    each a tilde or a backtick, then spaces or tabs, then "mermaid" or
    "Mermaid", then spaces or tabs, then at most one final newline; the group
    it returns is the third of the three characters. *)
Theorem MermaidRegex_match_shape line g :
  MermaidRegex_match line = Some g <->
  exists g1 g2 ws1 m ws2 e,
    line = glyph_char g1 :: glyph_char g2 :: glyph_char g
           :: ws1 ++ m :: lit "ermaid" ++ ws2 ++ e
    /\ forallb blank ws1 = true
    /\ (m = 77 \/ m = 109)
    /\ forallb blank ws2 = true
    /\ (e = [] \/ e = [nl]).
Proof.
  split.
  - intros Hm.
    apply MermaidRegex_match_some in Hm as (g1 & g2 & rest & rest' & -> & Hw & Hd).
    apply word_mermaid_some in Hw as (m & Hm & Hw).
    apply blanks_dollar_true in Hd as (ws2 & e & -> & Hws2 & He).
    destruct (dropwhile_split blank rest) as (ws1 & Er & Hws1).
    exists g1, g2, ws1, m, ws2, e. rewrite Er at 1. rewrite Hw. auto.
  - intros (g1 & g2 & ws1 & m & ws2 & e & -> & Hws1 & Hm & Hws2 & He).
    rewrite MermaidRegex_match_glyphs, dropwhile_app_all by exact Hws1.
    assert (Hb : dropwhile blank (m :: lit "ermaid" ++ ws2 ++ e)
                 = m :: lit "ermaid" ++ ws2 ++ e)
      by (destruct Hm as [-> | ->]; reflexivity).
    assert (Hw : word_mermaid (m :: lit "ermaid" ++ ws2 ++ e) = Some (ws2 ++ e))
      by (apply word_mermaid_some; eauto).
    assert (Hd : blanks_dollar (ws2 ++ e) = true)
      by (apply blanks_dollar_true; eauto).
    now rewrite Hb, Hw, Hd.
Qed.

(** X4: the closing pattern built from the glyph [g] takes a line exactly
    when it is three times [g] at the very start, then spaces or tabs, then at
    most one final newline: an indented fence, a fence of four glyphs and a
    fence followed by text do not close a block. *)
Theorem end_match_shape g line :
  end_match (Some g) line = true <->
  exists ws e,
    line = glyph_char g :: glyph_char g :: glyph_char g :: ws ++ e
    /\ forallb blank ws = true
    /\ (e = [] \/ e = [nl]).
Proof.
  rewrite end_match_some. split.
  - intros (rest & -> & Hd).
    apply blanks_dollar_true in Hd as (ws & e & -> & Hws & He). eauto.
  - intros (ws & e & -> & Hws & He). eexists. split; [reflexivity|].
    apply blanks_dollar_true. eauto.
Qed.

Lemma word_mermaid_at_end s : at_dollar s = true -> word_mermaid s = None.
Proof.
  destruct s as [|c [|d t]]; try discriminate; [reflexivity|].
  simpl. intros H. apply N.eqb_eq in H. subst. reflexivity.
Qed.

(** A line of the opening-fence shape is no closing fence, of either glyph. *)
Lemma open_fence_not_close line g g' :
  MermaidRegex_match line = Some g' -> end_match (Some g) line = false.
Proof.
  intros Hm. destruct (end_match (Some g) line) eqn:Ee; [|reflexivity].
  apply MermaidRegex_match_some in Hm as (g1 & g2 & rest & rest' & -> & Hw & _).
  apply end_match_some in Ee as (rest0 & [= _ _ _ <-] & Hd).
  unfold blanks_dollar in Hd. apply word_mermaid_at_end in Hd. congruence.
Qed.

(** ** The state between two iterations *)

Lemma wf_inside st : wf st -> in_mermaid_code st = inside (scan_of st).
Proof.
  intros (_ & _ & Hg). unfold scan_of.
  destruct (in_mermaid_code st); [|reflexivity].
  destruct (mermaid_sign st); [reflexivity|now elim Hg].
Qed.

Lemma scan_of_inside st g :
  scan_of st = InsideBlock g -> mermaid_sign st = Some g.
Proof.
  unfold scan_of. destruct (in_mermaid_code st); [|discriminate].
  destruct (mermaid_sign st); [congruence|discriminate].
Qed.

Lemma scan_of_outside st : in_mermaid_code st = false -> scan_of st = Outside.
Proof. unfold scan_of. now intros ->. Qed.

Lemma fold_scan lines : forall st,
  wf st -> scan_of (fold_left step lines st) = scan_end (scan_of st) lines.
Proof.
  induction lines as [|line rest IH]; intros st Hwf; [reflexivity|].
  destruct (step_refines st line Hwf) as (Hwf' & Hsc & _).
  simpl. rewrite IH by exact Hwf'. now rewrite Hsc.
Qed.

Lemma loop_scan lines : scan_of (loop lines) = scan_end Outside lines.
Proof. apply (fold_scan lines state0 wf_state0). Qed.

Lemma loop_inside lines : in_mermaid_code (loop lines) = inside (scan_end Outside lines).
Proof. rewrite <- loop_scan. apply wf_inside, loop_wf. Qed.

Lemma scan_end_app a : forall s b,
  scan_end s (a ++ b) = scan_end (scan_end s a) b.
Proof. induction a as [|l a IH]; intros s b; simpl; auto. Qed.

Lemma loop_snoc pre line : loop (pre ++ [line]) = step (loop pre) line.
Proof. unfold loop. now rewrite fold_left_app. Qed.

Lemma loop_app_new_lines a b :
  new_lines (loop (a ++ b)) =
  new_lines (loop a) ++ rewrite (scan_of (loop a)) (last a []) b.
Proof. rewrite loop_new_lines. apply rewrite_app_loop. Qed.

Lemma inside_end_has_fence lines :
  inside (scan_end Outside lines) = true -> has_fence lines = true.
Proof.
  induction lines as [|l r IH]; simpl; [discriminate|].
  unfold is_fence. destruct (MermaidRegex_match l); simpl; auto.
Qed.

(** X5: at the head of every iteration [m_start] and [m_end] are [None] and
    [old_line] is the line before; [is_mermaid] tells whether a fence was met
    so far and is never cleared again; and inside a block [mermaid_sign] holds
    a glyph, so that the closing pattern is always built from one. *)
Theorem loop_invariant lines :
  m_start (loop lines) = None
  /\ m_end (loop lines) = false
  /\ old_line (loop lines) = last lines []
  /\ is_mermaid (loop lines) = has_fence lines
  /\ (forall more, is_mermaid (loop lines) = true ->
                   is_mermaid (loop (lines ++ more)) = true)
  /\ (in_mermaid_code (loop lines) = true ->
      is_mermaid (loop lines) = true
      /\ exists g, mermaid_sign (loop lines) = Some g).
Proof.
  destruct (loop_wf lines) as (Hs & He & Hg).
  split; [exact Hs|]. split; [exact He|].
  split; [apply (fold_old_line lines state0)|].
  split; [apply loop_is_mermaid|]. split.
  - intros more. rewrite !loop_is_mermaid, has_fence_app. now intros ->.
  - intros Hin. split; [|now apply loop_sign_bound].
    rewrite loop_is_mermaid. apply inside_end_has_fence.
    now rewrite <- loop_inside.
Qed.

Lemma loop_invariant_witness :
  is_mermaid (loop [lit "a"; lit "```mermaid"; lit "b"]) = true
  /\ exists g, mermaid_sign (loop [lit "a"; lit "```mermaid"; lit "b"]) = Some g.
Proof.
  apply loop_invariant. reflexivity.
Defined.

(** X6: inside a block a line of the opening-fence shape is content: it is
    emitted right-trimmed, the block stays open, and the glyph recorded for
    the closing fence is not replaced by the glyph of that line. *)
Theorem nested_fence_is_content pre line g' :
  in_mermaid_code (loop pre) = true ->
  MermaidRegex_match line = Some g' ->
  new_lines (loop (pre ++ [line])) = new_lines (loop pre) ++ [rstrip line]
  /\ in_mermaid_code (loop (pre ++ [line])) = true
  /\ mermaid_sign (loop (pre ++ [line])) = mermaid_sign (loop pre).
Proof.
  intros Hin Hm. destruct (loop_sign_bound pre Hin) as (g & Hg).
  assert (Hsc : scan_of (loop pre) = InsideBlock g)
    by (unfold scan_of; now rewrite Hin, Hg).
  destruct (step_refines (loop pre) line (loop_wf pre)) as (Hwf & Hs & Hn & _).
  rewrite Hsc in Hs, Hn. simpl in Hs, Hn.
  rewrite (open_fence_not_close line g g' Hm) in Hs, Hn. simpl in Hs, Hn.
  rewrite loop_snoc. split; [exact Hn|]. split.
  - rewrite (wf_inside _ Hwf), Hs. reflexivity.
  - rewrite Hg. now apply scan_of_inside.
Qed.

Lemma nested_fence_is_content_witness :
  new_lines (loop ([lit "```mermaid"; lit "graph TD"] ++ [lit "~~~mermaid  "]))
  = new_lines (loop [lit "```mermaid"; lit "graph TD"]) ++ [rstrip (lit "~~~mermaid  ")]
  /\ in_mermaid_code (loop ([lit "```mermaid"; lit "graph TD"] ++ [lit "~~~mermaid  "]))
     = true
  /\ mermaid_sign (loop ([lit "```mermaid"; lit "graph TD"] ++ [lit "~~~mermaid  "]))
     = mermaid_sign (loop [lit "```mermaid"; lit "graph TD"]).
Proof.
  apply (nested_fence_is_content _ _ Tilde); reflexivity.
Defined.

(** ** Size and shape of the result *)

Lemma rewrite_length lines : forall s prev,
  (List.length lines <= List.length (rewrite s prev lines))%nat.
Proof.
  induction lines as [|l r IH]; intros s prev; simpl; [lia|].
  rewrite length_app. specialize (IH (next_scan s (role_of s l)) l).
  destruct (role_of s l); simpl in *; try lia.
  rewrite length_app. simpl. lia.
Qed.

Lemma init_block_length a : (2 <= List.length (init_block a))%nat.
Proof. unfold init_block. destruct (attr_truthy a); simpl; lia. Qed.

(** X7: the result is never shorter than the document, and it is longer by
    two lines at least when the document holds an opening fence. *)
Theorem run_never_shorter self lines out :
  run self lines = Return out ->
  (List.length lines <= List.length out)%nat
  /\ (has_fence lines = true -> (List.length lines + 2 <= List.length out)%nat).
Proof.
  rewrite run_unfold. intros H.
  pose proof (rewrite_length lines Outside []) as L.
  destruct (has_fence lines).
  - assert (E : out = rewrite Outside [] lines ++ init_block (self_mermaid_js_url self))
      by (destruct (self_mermaid_js_url self); [discriminate| |]; now injection H).
    pose proof (init_block_length (self_mermaid_js_url self)).
    rewrite E, length_app. lia.
  - injection H as <-. split; [exact L|discriminate].
Qed.

Lemma run_never_shorter_witness :
  let lines := [lit "x"; lit "~~~mermaid"; lit "~~~"] in
  let out := [lit "x"; []; div_open; div_close; []; []; script_deferred] in
  (List.length lines <= List.length out)%nat
  /\ (has_fence lines = true -> (List.length lines + 2 <= List.length out)%nat).
Proof.
  intros lines out.
  apply (run_never_shorter (init (mkConfig [] None))). vm_compute. reflexivity.
Defined.

(** X8: the lines in front of the first opening fence come out first and
    unchanged, whatever follows and whatever the configuration. *)
Theorem run_keeps_leading_lines self pre rest out :
  (forall l, In l pre -> MermaidRegex_match l = None) ->
  run self (pre ++ rest) = Return out ->
  exists tail, out = pre ++ tail.
Proof.
  intros Hpre H. apply has_fence_false in Hpre.
  assert (E : exists t, out = rewrite Outside [] (pre ++ rest) ++ t).
  { rewrite run_unfold in H. destruct (has_fence (pre ++ rest)).
    - destruct (self_mermaid_js_url self); [discriminate| |];
        injection H as <-; eauto.
    - injection H as <-. exists []. now rewrite app_nil_r. }
  destruct E as (t & ->).
  rewrite rewrite_app_loop, loop_new_lines, rewrite_no_fence by exact Hpre.
  rewrite <- app_assoc. eauto.
Qed.

Lemma run_keeps_leading_lines_witness :
  exists tail,
    [lit "# T "; lit "```"; []; div_open; lit "a"; []; script_deferred]
    = [lit "# T "; lit "```"] ++ tail.
Proof.
  apply (run_keeps_leading_lines (init (mkConfig [] None)) _
           [lit "```mermaid"; lit "a"]).
  - intros l Hl. each_member Hl reflexivity.
  - vm_compute. reflexivity.
Defined.

Lemma rewrite_prev lines s p p' :
  blank_line p = blank_line p' -> rewrite s p lines = rewrite s p' lines.
Proof.
  intros Hb. destruct lines as [|l r]; [reflexivity|]. simpl.
  destruct (role_of s l); simpl; now rewrite ?Hb.
Qed.

(** X9: where a document [a] ends outside every block and on a blank line (or
    is empty), the lines emitted for [a] followed by [b] are those emitted for
    [a] followed by those emitted for [b] alone, and the scan ends inside a
    block exactly when it does on [b]. *)
Theorem loop_splits_at_blank_line a b :
  in_mermaid_code (loop a) = false ->
  blank_line (last a []) = true ->
  new_lines (loop (a ++ b)) = new_lines (loop a) ++ new_lines (loop b)
  /\ in_mermaid_code (loop (a ++ b)) = in_mermaid_code (loop b).
Proof.
  intros Hin Hb. split.
  - rewrite loop_app_new_lines, (scan_of_outside _ Hin), (loop_new_lines b).
    f_equal. apply rewrite_prev. now rewrite Hb.
  - rewrite !loop_inside, scan_end_app, <- loop_scan.
    now rewrite (scan_of_outside _ Hin).
Qed.

Lemma loop_splits_at_blank_line_witness :
  let a := [lit "~~~mermaid"; lit "x"; lit "~~~"; lit "  "] in
  let b := [lit "```mermaid"; lit "y"] in
  new_lines (loop (a ++ b)) = new_lines (loop a) ++ new_lines (loop b)
  /\ in_mermaid_code (loop (a ++ b)) = in_mermaid_code (loop b).
Proof.
  intros a b. apply loop_splits_at_blank_line; reflexivity.
Defined.

(** ** Around the tags *)

Lemma blank_not_fence p :
  blank_line p = true ->
  MermaidRegex_match p = None /\ forall g, end_match (Some g) p = false.
Proof.
  intros Hb. split.
  - destruct (MermaidRegex_match p) as [g|] eqn:E; [|reflexivity].
    apply MermaidRegex_match_some in E as (g1 & g2 & r & r' & -> & _).
    now rewrite blank_line_glyphs in Hb.
  - intros g. destruct (end_match (Some g) p) eqn:E; [|reflexivity].
    apply end_match_some in E as (r & -> & _).
    now rewrite blank_line_glyphs in Hb.
Qed.

(** A blank line that leaves the scan outside every block was emitted as it
    is, and is the last line emitted so far. *)
Lemma last_emitted_blank pre :
  pre <> [] ->
  in_mermaid_code (loop pre) = false ->
  blank_line (last pre []) = true ->
  last (new_lines (loop pre)) [] = last pre [].
Proof.
  destruct pre as [|p pre _] using rev_ind; [congruence|].
  intros _ Hin Hb. rewrite last_last in *.
  destruct (blank_not_fence p Hb) as (Hm & He).
  rewrite loop_snoc in *.
  destruct (step_refines (loop pre) p (loop_wf pre)) as (Hwf & Hs & Hn & _).
  rewrite Hn. rewrite (wf_inside _ Hwf), Hs in Hin.
  destruct (scan_of (loop pre)) as [|g]; simpl in *.
  - rewrite Hm. simpl. apply last_last.
  - rewrite He in Hin. discriminate.
Qed.

(** X10: the opening tag written for a fence starts the result or follows a
    blank line: what precedes it is what was emitted before the fence, plus an
    empty line when the line before the fence is not blank. *)
Theorem div_open_follows_blank self pre fence g rest out :
  in_mermaid_code (loop pre) = false ->
  MermaidRegex_match fence = Some g ->
  run self (pre ++ fence :: rest) = Return out ->
  exists before after,
    out = before ++ div_open :: after
    /\ before = new_lines (loop pre)
                ++ (if blank_line (last pre []) then [] else [[]])
    /\ (before = [] \/ blank_line (last before []) = true).
Proof.
  intros Hin Hm Hrun.
  assert (Hf : has_fence (pre ++ fence :: rest) = true).
  { rewrite has_fence_app. simpl. unfold is_fence at 1.
    rewrite Hm. apply orb_true_r. }
  rewrite run_unfold, Hf in Hrun.
  assert (E : out = rewrite Outside [] (pre ++ fence :: rest)
                    ++ init_block (self_mermaid_js_url self))
    by (destruct (self_mermaid_js_url self); [discriminate| |]; now injection Hrun).
  rewrite rewrite_app_loop, (scan_of_outside _ Hin) in E. simpl in E.
  rewrite Hm in E. simpl in E.
  eexists _, _. split; [|split; [reflexivity|]].
  - rewrite E, <- !app_assoc. reflexivity.
  - destruct (blank_line (last pre [])) eqn:Hb.
    + rewrite app_nil_r. destruct pre as [|p pre'] eqn:Ep; [now left|right].
      rewrite <- Ep in *. rewrite last_emitted_blank; auto. congruence.
    + right. now rewrite last_last.
Qed.

Lemma div_open_follows_blank_witness :
  exists before after,
    [lit "text"; []; div_open; lit "a"; div_close; []; []; script_deferred]
    = before ++ div_open :: after
    /\ before = new_lines (loop [lit "text"])
                ++ (if blank_line (last [lit "text"] []) then [] else [[]])
    /\ (before = [] \/ blank_line (last before []) = true).
Proof.
  apply (div_open_follows_blank (init (mkConfig [] None)) _ (lit "~~~mermaid")
           Tilde [lit "a"; lit "~~~"]).
  - reflexivity.
  - reflexivity.
  - vm_compute. reflexivity.
Defined.

Lemma rewrite_block g body close rest : forall prev,
  (forall l, In l body -> end_match (Some g) l = false) ->
  end_match (Some g) close = true ->
  rewrite (InsideBlock g) prev (body ++ close :: rest) =
  map rstrip body ++ [div_close; []] ++ rewrite Outside close rest.
Proof.
  induction body as [|l body IH]; intros prev Hb Hc; simpl.
  - now rewrite Hc.
  - rewrite (Hb l (or_introl eq_refl)). simpl. f_equal.
    apply IH; [|exact Hc]. intros; apply Hb; now right.
Qed.

Lemma scan_end_block g body close :
  (forall l, In l body -> end_match (Some g) l = false) ->
  end_match (Some g) close = true ->
  scan_end (InsideBlock g) (body ++ [close]) = Outside.
Proof.
  induction body as [|l body IH]; intros Hb Hc; simpl.
  - now rewrite Hc.
  - rewrite (Hb l (or_introl eq_refl)). simpl.
    apply IH; [|exact Hc]. intros; apply Hb; now right.
Qed.

(** X11: a block that is opened outside every block and closed by the first
    later line matching the closing pattern of its glyph is emitted as the
    separator, the opening tag, its content lines right-trimmed, the closing
    tag and an empty line; the two fence lines are not emitted, and the scan
    is outside again. *)
Theorem closed_block_is_wrapped pre fence g body close :
  in_mermaid_code (loop pre) = false ->
  MermaidRegex_match fence = Some g ->
  (forall l, In l body -> end_match (Some g) l = false) ->
  end_match (Some g) close = true ->
  new_lines (loop (pre ++ fence :: body ++ [close]))
  = new_lines (loop pre)
    ++ (if blank_line (last pre []) then [] else [[]])
    ++ [div_open] ++ map rstrip body ++ [div_close; []]
  /\ in_mermaid_code (loop (pre ++ fence :: body ++ [close])) = false.
Proof.
  intros Hin Hm Hb Hc. split.
  - rewrite loop_app_new_lines, (scan_of_outside _ Hin). simpl.
    rewrite Hm. simpl. rewrite rewrite_block by assumption.
    simpl. rewrite <- !app_assoc. reflexivity.
  - rewrite loop_inside, scan_end_app, <- loop_scan, (scan_of_outside _ Hin).
    simpl. rewrite Hm. simpl. now rewrite scan_end_block.
Qed.

Lemma closed_block_is_wrapped_witness :
  let pre := [lit "intro"] in
  let body := [lit "graph TD;  "; lit "```"; lit " ~~~"; lit "~~~~"] in
  new_lines (loop (pre ++ lit "~~~Mermaid" :: body ++ [lit "~~~  "]))
  = new_lines (loop pre)
    ++ (if blank_line (last pre []) then [] else [[]])
    ++ [div_open] ++ map rstrip body ++ [div_close; []]
  /\ in_mermaid_code (loop (pre ++ lit "~~~Mermaid" :: body ++ [lit "~~~  "])) = false.
Proof.
  intros pre body. apply (closed_block_is_wrapped _ _ Tilde).
  - reflexivity.
  - reflexivity.
  - intros l Hl. each_member Hl reflexivity.
  - reflexivity.
Defined.

(** ** Configuration, once more *)

Lemma run_return_inv self lines out :
  run self lines = Return out ->
  out = new_lines (loop lines)
        ++ (if has_fence lines then init_block (self_mermaid_js_url self) else []).
Proof.
  rewrite run_unfold, loop_new_lines. destruct (has_fence lines).
  - destruct (self_mermaid_js_url self); [discriminate| |]; now intros [= <-].
  - intros [= <-]. now rewrite app_nil_r.
Qed.

(** X12: the configuration decides the lines appended after the last line of
    the document and nothing else: two preprocessors that both return on a
    document agree on everything in front of the script lines. *)
Theorem run_config_changes_tail_only self1 self2 lines out1 out2 :
  run self1 lines = Return out1 ->
  run self2 lines = Return out2 ->
  exists body,
    out1 = body ++ (if has_fence lines
                    then init_block (self_mermaid_js_url self1) else [])
    /\ out2 = body ++ (if has_fence lines
                       then init_block (self_mermaid_js_url self2) else []).
Proof.
  intros H1 H2. exists (new_lines (loop lines)).
  split; now apply run_return_inv.
Qed.

Lemma run_config_changes_tail_only_witness :
  let lines := [lit "~~~mermaid"; lit "a"; lit "~~~"] in
  let self1 := init (mkConfig (lit "9.1") (Some [])) in
  let self2 := init (mkConfig (lit "9.1") None) in
  exists body,
    [div_open; lit "a"; div_close; []; [];
     script_src (url_versioned (lit "9.1")); script_init]
    = body ++ (if has_fence lines
               then init_block (self_mermaid_js_url self1) else [])
    /\ [div_open; lit "a"; div_close; []; []; script_deferred]
       = body ++ (if has_fence lines
                  then init_block (self_mermaid_js_url self2) else []).
Proof.
  intros lines self1 self2.
  apply run_config_changes_tail_only; vm_compute; reflexivity.
Defined.

(** X13: under the default options of the extension, constructing the
    preprocessor and running it returns on every document: the document itself
    when it holds no opening fence, and otherwise the rewritten lines followed
    by an empty line, the script tag of the unversioned URL and the
    initialization line. *)
Theorem default_config_returns lines :
  process MermaidExtension_config lines =
  Return (if has_fence lines
          then new_lines (loop lines) ++ [[]; script_src url_default; script_init]
          else lines).
Proof.
  unfold process. rewrite run_unfold, loop_new_lines.
  destruct (has_fence lines) eqn:Hf; [reflexivity|].
  now rewrite rewrite_no_fence.
Qed.

(** X14: with [mermaid_js_url] empty, the script tag points at the
    unversioned URL when the version is exactly ['latest'] or empty, and for
    every other version string at the versioned URL, the string being put in
    as it is. *)
Theorem url_follows_version version lines :
  has_fence lines = true ->
  (version = lit "latest" \/ version = [] ->
   process (mkConfig version (Some [])) lines =
   Return (new_lines (loop lines) ++ [[]; script_src url_default; script_init]))
  /\ (version <> lit "latest" -> version <> [] ->
      process (mkConfig version (Some [])) lines =
      Return (new_lines (loop lines)
              ++ [[]; script_src (lit "https://unpkg.com/mermaid@" ++ version
                                  ++ lit "/dist/mermaid.min.js");
                  script_init])).
Proof.
  intros Hf. rewrite loop_new_lines. split.
  - now apply process_default_url.
  - now apply process_versioned_url.
Qed.

Lemma url_follows_version_witness :
  process (mkConfig (lit "Latest") (Some [])) [lit "```mermaid"] =
  Return (new_lines (loop [lit "```mermaid"])
          ++ [[]; script_src (lit "https://unpkg.com/mermaid@" ++ lit "Latest"
                              ++ lit "/dist/mermaid.min.js");
              script_init]).
Proof.
  apply url_follows_version; [reflexivity | discriminate | discriminate].
Defined.

Lemma script_init_not_deferred : script_init <> script_deferred.
Proof.
  intros H. apply (f_equal (fun l => nth 8 l 0)) in H.
  vm_compute in H. discriminate.
Qed.

Lemma last_app_ne (x y : list str) d : y <> [] -> last (x ++ y) d = last y d.
Proof.
  intros Hy. induction x as [|a x IH]; [reflexivity|].
  simpl. rewrite IH. destruct (x ++ y) eqn:E; [|reflexivity].
  apply app_eq_nil in E as [_ E]. contradiction.
Qed.

(** X15: when a fence was found and the run returns, the deferred script is
    the last element of the result exactly when [mermaid_js_url] was
    configured as [None]; an empty [mermaid_js_url] never leads to it. *)
Theorem deferred_script_iff_none cfg lines out :
  has_fence lines = true ->
  process cfg lines = Return out ->
  (last out [] = script_deferred <-> mermaid_js_url cfg = None).
Proof.
  intros Hf H. unfold process in H. rewrite run_unfold, Hf, init_binds in H.
  destruct (mermaid_js_url cfg) as [u|].
  - destruct (truthy u); [discriminate H|].
    split; [|discriminate]. intros E. exfalso.
    apply script_init_not_deferred. rewrite <- E.
    destruct (_ || _); injection H as <-;
      rewrite last_app_ne by (unfold init_block; simpl; discriminate);
      reflexivity.
  - injection H as <-. split; [reflexivity|]. intros _.
    rewrite last_app_ne by discriminate. reflexivity.
Qed.

Lemma deferred_script_iff_none_witness :
  last [div_open; []; script_src url_default; script_init] [] = script_deferred
  <-> mermaid_js_url (mkConfig (lit "latest") (Some [])) = None.
Proof.
  apply (deferred_script_iff_none _ [lit "```mermaid"]); vm_compute; reflexivity.
Defined.

(** ** Lines that end in a carriage return *)

Lemma blanks_dollar_cr x : blanks_dollar (x ++ [13]) = false.
Proof.
  unfold blanks_dollar. induction x as [|c x IH]; [reflexivity|].
  simpl. destruct (blank c); [exact IH|].
  destruct (x ++ [13]) eqn:E; [|reflexivity].
  apply app_eq_nil in E as [_ E]. discriminate.
Qed.

Lemma last_cr_tail (p : str) c rest l :
  c <> 13 -> l ++ [13] = p ++ c :: rest -> exists x, rest = x ++ [13].
Proof.
  intros Hc E. destruct rest as [|r rest] using rev_ind.
  - apply (f_equal (fun s => last s 0)) in E.
    rewrite last_last, last_last in E. congruence.
  - exists rest. f_equal.
    apply (f_equal (fun s => last s 0)) in E.
    rewrite last_last in E.
    change (p ++ c :: rest ++ [r]) with (p ++ (c :: rest) ++ [r]) in E.
    rewrite app_assoc, last_last in E. now subst.
Qed.

Lemma cr_line_not_fence l : MermaidRegex_match (l ++ [13]) = None.
Proof.
  destruct (MermaidRegex_match (l ++ [13])) as [g|] eqn:E; [|reflexivity].
  apply MermaidRegex_match_some in E as (g1 & g2 & rest & rest' & E & Hw & Hd).
  apply word_mermaid_some in Hw as (m & _ & Hw).
  destruct (dropwhile_split blank rest) as (ws1 & Er & _).
  rewrite Hw in Er. rewrite Er in E.
  assert (E' : l ++ [13] =
               (glyph_char g1 :: glyph_char g2 :: glyph_char g
                :: ws1 ++ m :: lit "ermai") ++ 100 :: rest')
    by (rewrite E; simpl; rewrite <- app_assoc; reflexivity).
  apply last_cr_tail in E' as (x & ->); [|discriminate].
  now rewrite blanks_dollar_cr in Hd.
Qed.

(** X16: a line that ends in a carriage return is never an opening fence, so
    that a document whose lines all end in one (a file with CRLF line ends,
    split at the newlines) is returned as it is, fences included. *)
Theorem crlf_document_is_unchanged self lines :
  (forall l, In l lines -> exists l', l = l' ++ [13]) ->
  run self lines = Return lines.
Proof.
  intros H.
  assert (Hf : has_fence lines = false).
  { apply has_fence_false. intros l Hl. destruct (H l Hl) as (l' & ->).
    apply cr_line_not_fence. }
  rewrite run_unfold, Hf. now rewrite rewrite_no_fence.
Qed.

Lemma crlf_document_is_unchanged_witness :
  run (init MermaidExtension_config)
      [lit "```mermaid" ++ [13]; lit "graph TD" ++ [13]; lit "```" ++ [13]]
  = Return [lit "```mermaid" ++ [13]; lit "graph TD" ++ [13]; lit "```" ++ [13]].
Proof.
  apply crlf_document_is_unchanged.
  intros l [<- | [<- | [<- | []]]]; eexists; reflexivity.
Defined.

(** ** Counting the tags *)

Lemma occurrences_app x a b :
  occurrences x (a ++ b) = (occurrences x a + occurrences x b)%nat.
Proof. apply count_occ_app. Qed.

Lemma occurrences_one x y :
  occurrences x [y] = if str_eqb y x then 1%nat else 0%nat.
Proof.
  unfold occurrences, str_eqb, str_dec. simpl.
  destruct (list_eq_dec N.eq_dec y x); reflexivity.
Qed.

Lemma str_eqb_neq a b : a <> b -> str_eqb a b = false.
Proof.
  intros H. destruct (str_eqb a b) eqn:E; [|reflexivity].
  apply str_eqb_eq in E. contradiction.
Qed.

Lemma init_block_no_tag a :
  occurrences div_open (init_block a) = 0%nat
  /\ occurrences div_close (init_block a) = 0%nat.
Proof.
  unfold init_block.
  destruct (attr_truthy a); split;
    change (?x :: ?y :: ?t) with ([x] ++ [y] ++ t);
    rewrite ?occurrences_app, ?occurrences_one;
    rewrite ?str_eqb_neq; try reflexivity;
    try (intros E; apply (f_equal (fun l => nth 1 l 0)) in E;
         vm_compute in E; discriminate);
    try (intros E; apply (f_equal (fun l => nth 1 l 1)) in E;
         vm_compute in E; discriminate).
Qed.

Arguments occurrences : simpl never.

Lemma occurrences_open_emitted g prev line :
  occurrences div_open (emitted prev (OpenFence g) line) = 1%nat
  /\ occurrences div_close (emitted prev (OpenFence g) line) = 0%nat.
Proof.
  unfold emitted. destruct (blank_line prev); split; vm_compute; reflexivity.
Qed.

Lemma occurrences_close_emitted prev line :
  occurrences div_open (emitted prev CloseFence line) = 0%nat
  /\ occurrences div_close (emitted prev CloseFence line) = 1%nat.
Proof. split; vm_compute; reflexivity. Qed.

(** Across a run of lines none of which is a tag, as it stands or
    right-trimmed, the opening tags emitted exceed the closing tags emitted
    by one when the scan enters a block and stays in, and the other way round
    when it leaves one. *)
Lemma rewrite_balance lines : forall s prev,
  (forall l, In l lines ->
     l <> div_open /\ l <> div_close
     /\ rstrip l <> div_open /\ rstrip l <> div_close) ->
  (occurrences div_open (rewrite s prev lines) + (if inside s then 1 else 0)
   = occurrences div_close (rewrite s prev lines)
     + (if inside (scan_end s lines) then 1 else 0))%nat.
Proof.
  induction lines as [|l r IH]; intros s prev H;
    cbn [rewrite scan_end]; [unfold occurrences; simpl; lia|].
  destruct (H l (or_introl eq_refl)) as (H1 & H2 & H3 & H4).
  assert (Hr : forall x, In x r ->
                 x <> div_open /\ x <> div_close
                 /\ rstrip x <> div_open /\ rstrip x <> div_close)
    by (intros; apply H; now right).
  specialize (IH (next_scan s (role_of s l)) l Hr).
  rewrite !occurrences_app.
  destruct (role_of s l) as [g| | |] eqn:Er.
  - destruct (occurrences_open_emitted g prev l) as [-> ->].
    assert (s = Outside) as ->
      by (destruct s; [reflexivity|]; cbn in Er;
          destruct (end_match _ _); discriminate).
    cbn [next_scan inside] in *. lia.
  - destruct (occurrences_close_emitted prev l) as [-> ->].
    assert (inside s = true)
      by (destruct s; [|reflexivity]; cbn in Er;
          destruct (MermaidRegex_match _); discriminate).
    cbn [next_scan inside] in *. destruct (inside s); [lia|discriminate].
  - cbn [emitted next_scan] in *.
    rewrite !occurrences_one, !str_eqb_neq by assumption. lia.
  - cbn [emitted next_scan] in *.
    rewrite !occurrences_one, !str_eqb_neq by assumption. lia.
Qed.

(** X17: in the result for a document none of whose lines is itself one of
    the two tags, as it stands or right-trimmed, the opening tags and the
    closing tags are as many, except that one opening tag has no closing tag
    when the document ends inside a block. *)
Theorem tags_balance self lines out :
  (forall l, In l lines ->
     l <> div_open /\ l <> div_close
     /\ rstrip l <> div_open /\ rstrip l <> div_close) ->
  run self lines = Return out ->
  occurrences div_open out
  = (occurrences div_close out
     + (if in_mermaid_code (loop lines) then 1 else 0))%nat.
Proof.
  intros H Hrun. apply run_return_inv in Hrun. subst out.
  rewrite loop_new_lines, loop_inside, !occurrences_app.
  pose proof (rewrite_balance lines Outside [] H) as B. simpl in B.
  destruct (has_fence lines).
  - destruct (init_block_no_tag (self_mermaid_js_url self)) as [-> ->]. lia.
  - simpl. unfold occurrences in *. simpl. lia.
Qed.

Lemma tags_balance_witness :
  let lines := [lit "~~~mermaid"; lit "a"; lit "~~~"; lit "```mermaid"; lit "b"] in
  let out := [div_open; lit "a"; div_close; []; []; div_open; lit "b"; [];
              script_deferred] in
  occurrences div_open out
  = (occurrences div_close out
     + (if in_mermaid_code (loop lines) then 1 else 0))%nat.
Proof.
  intros lines out. apply (tags_balance (init (mkConfig [] None))).
  - intros l Hl. each_member Hl ltac:(repeat split; discriminate).
  - vm_compute. reflexivity.
Defined.

(** ** When the run raises *)

(** X18: constructing the preprocessor and running it raises
    [AttributeError] exactly when the document holds an opening fence and
    [mermaid_js_url] is configured as a non-empty string; under every other
    configuration, and on every document without a fence, it returns. *)
Theorem process_raises_exactly cfg lines :
  (process cfg lines = Raise AttributeError <->
   has_fence lines = true /\ exists u, mermaid_js_url cfg = Some u /\ u <> [])
  /\ (process cfg lines = Raise AttributeError
      \/ exists out, process cfg lines = Return out).
Proof.
  split; [apply process_raises_iff|].
  destruct (process cfg lines) as [out|[]]; eauto.
Qed.
